(** * Bounded evaluation of restricted scripts: [evaluator.py]

    A shallow embedding of [evaluator.py]: the single-slot result queue, the
    [RunnableProcessing] child process, the [timeout] decorator and the
    decorated [evaluate] function, followed by the properties of the
    bounded-execution wrapper.

    Modelling decisions.
    - A callable is a function on the state of the process that runs it and
      ends in one of four ways (type [outcome]): it returns, it raises an
      instance of [Exception], it raises a [BaseException] that is not an
      [Exception] ([SystemExit], [KeyboardInterrupt], [GeneratorExit]), or it
      never returns.
    - Dict objects live in a heap of locations, so that aliasing of the
      caller's [input_variables] (and of the shared default [{}]) is visible.
      [Process.start] forks: the child works on a copy of the heap.
    - Wall-clock readings are binary64 floats, as [time.time()] returns them.
    - The [asteval] package ([make_symbol_table], [Interpreter]) and the
      rendering of a float by [str.format] are not part of the repository;
      they are parameters of the development.
    - The standard library is idealised in three places. Values cross the
      queue unchanged: pickling, its failures and the capacity of the pipe
      are not modelled. The time a child needs to exit is given by the world
      of the caller, not by the callable. [terminate] takes effect at
      once. *)

From Stdlib Require Import ZArith String PrimFloat.
From stdpp Require Import gmap strings list fin_maps.

Local Open Scope float_scope.
Local Open Scope Z_scope.
Local Open Scope nat_scope.
Local Open Scope stdpp_scope.

(** ** Python values, exceptions and the ways a call can end *)

Inductive value : Type :=
| VNone
| VBool (b : bool)
| VInt (z : Z)
| VFloat (f : float)
| VStr (s : string)
| VBuiltin (name : string).

(** Classes deriving from [Exception]. [TimeoutException] is the class
    declared at the top of [evaluator.py]. *)
Inductive exc_class : Type :=
| TimeoutException
| AssertionError
| TypeError
| ExceptionNamed (name : string).

Record exn : Type := Exn { exn_class : exc_class; exn_msg : string }.

(** Classes deriving from [BaseException] but not from [Exception]: a clause
    [except Exception] does not catch them. *)
Inductive base_exc : Type :=
| SystemExit (code : Z)
| KeyboardInterrupt
| GeneratorExit.

Inductive outcome (A : Type) : Type :=
| Returns (a : A)
| Raises (e : exn)
| Escapes (b : base_exc)
| Diverges.

Arguments Returns {A} a.
Arguments Raises {A} e.
Arguments Escapes {A} b.
Arguments Diverges {A}.

(** ** A state monad with the four outcomes *)

Definition SM (S A : Type) : Type := S → outcome A * S.

Definition ret {S A} (a : A) : SM S A := λ s, (Returns a, s).

Definition raise {S A} (e : exn) : SM S A := λ s, (Raises e, s).

Definition bind {S A B} (m : SM S A) (f : A → SM S B) : SM S B :=
  λ s, match m s with
       | (Returns a, s') => f a s'
       | (Raises e, s') => (Raises e, s')
       | (Escapes b, s') => (Escapes b, s')
       | (Diverges, s') => (Diverges, s')
       end.

Definition gets {S A} (f : S → A) : SM S A := λ s, (Returns (f s), s).

Definition modify {S} (f : S → S) : SM S unit := λ s, (Returns tt, f s).

Declare Scope py_scope.
Delimit Scope py_scope with py.
Notation "x <- m ;; k" := (bind m (λ x, k))
  (at level 100, m at next level, right associativity) : py_scope.
Notation "m ;; k" := (bind m (λ _, k))
  (at level 100, right associativity) : py_scope.
Local Open Scope py_scope.

(** ** Dict objects and the heap *)

Abbreviation symtable := (gmap string value).
Abbreviation loc := positive.
Abbreviation heap := (gmap loc symtable).

(** ** The single-slot channel: [multiprocessing.Queue(maxsize=1)] *)

Module Queue.

Record t (A : Type) : Type := Make { maxsize : nat; items : list A }.
Arguments Make {A} maxsize items.
Arguments maxsize {A} _.
Arguments items {A} _.

Definition new {A} (maxsize : nat) : t A := Make maxsize [].

Definition full {A} (q : t A) : bool := maxsize q <=? length (items q).

(** [put] with the default [block=True]: [None] stands for a producer
    blocked on a full queue. *)
Definition put {A} (x : A) (q : t A) : option (t A) :=
  if full q then None else Some (Make (maxsize q) (items q ++ [x])).

(** [get] with the default [block=True]: [None] stands for a consumer
    blocked on an empty queue. *)
Definition get {A} (q : t A) : option (A * t A) :=
  match items q with
  | [] => None
  | x :: rest => Some (x, Make (maxsize q) rest)
  end.

End Queue.

(** The pair [(True, result)] or [(False, e)] that [run_func] puts in the
    queue; the boolean tag selects the constructor. *)
Inductive envelope (R : Type) : Type :=
| Success (result : R)
| Failure (e : exn).

Arguments Success {R} result.
Arguments Failure {R} e.

(** ** The process that runs the callable *)

(** Keyword arguments of [asteval.Interpreter] other than [symtable], in the
    order in which [evaluate] passes them. *)
Record Interpreter_kwargs : Type := {
  use_numpy : bool;
  no_if : bool;
  no_for : bool;
  no_while : bool;
  no_try : bool;
  no_functiondef : bool;
  no_ifexp : bool;
  no_listcomp : bool;
  no_augassign : bool;
  no_assert : bool;
  no_delete : bool;
  no_raise : bool;
  no_print : bool
}.

(** Calls into [asteval], recorded in the order in which they are made. *)
Inductive ext_call : Type :=
| Call_make_symbol_table (numpy : bool) (kws : symtable) (table : loc)
| Call_Interpreter (table : loc) (kw : Interpreter_kwargs)
| Call_eval (table : loc) (expr : string).

Record child_state : Type := {
  c_heap : heap;
  c_log : list ext_call
}.

Abbreviation Child := (SM child_state).

(** A new dict object. *)
Definition alloc (d : symtable) : Child loc :=
  λ s, let l := fresh (dom (c_heap s)) in
       (Returns l, {| c_heap := <[l := d]> (c_heap s); c_log := c_log s |}).

(** The contents of a dict object; a reference that is not a dict is what
    [**] and subscripting reject. *)
Definition load (l : loc) : Child symtable :=
  λ s, match c_heap s !! l with
       | Some d => (Returns d, s)
       | None => (Raises (Exn TypeError "argument must be a mapping"), s)
       end.

Definition store (l : loc) (d : symtable) : Child unit :=
  modify (λ s, {| c_heap := <[l := d]> (c_heap s); c_log := c_log s |}).

Definition log (ev : ext_call) : Child unit :=
  modify (λ s, {| c_heap := c_heap s; c_log := c_log s ++ [ev] |}).

(** The keyword arguments of a call [f(k1=v1, ..., **star)]: a name given
    both explicitly and by [star] is a [TypeError]. When several names
    clash, Python names the first in the insertion order of [star], which a
    [gmap] does not keep; the message here names the first in the order of
    the explicit keywords, and the two agree when one name clashes. *)
Definition merge_keywords (fname : string) (explicit : list (string * value))
    (star : symtable) : Child symtable :=
  match List.find (λ kv, bool_decide (kv.1 ∈ dom star)) explicit with
  | Some kv =>
      raise (Exn TypeError
               (fname +:+ "() got multiple values for keyword argument '"
                      +:+ kv.1 +:+ "'"))
  | None => ret (star ∪ list_to_map explicit)
  end.

Record Interpreter : Type := {
  i_symtable : loc;
  i_kwargs : Interpreter_kwargs
}.

(** One call of [evaluate] as the caller writes it: [eval_code] is always
    given; [None] for an optional argument selects the default of the [def];
    [extra_keywords] are keyword arguments under any other name. *)
Record call : Type := {
  eval_code : string;
  input_variables : option loc;
  output_variables : option (list string);
  extra_keywords : list (string * value)
}.

(** The defaults [{}] and [[]] are created once, when the [def] is executed:
    every call that omits [input_variables] receives the same dict object. *)
Definition default_input_variables : loc := 1%positive.
Definition default_output_variables : list string := [].

(** ** The calling process and the operating system *)

Abbreviation pid := positive.

Inductive proc_state : Type :=
| Running
| Exited (exitcode : Z).

(** What the caller's process can observe. [w_child_runtime] is the
    wall-clock time that the next child needs to run its target and exit,
    when the target finishes at all. *)
Record World : Type := {
  w_heap : heap;
  w_clock : float;
  w_child_runtime : float;
  w_procs : gmap pid proc_state
}.

Abbreviation Parent := (SM World).

Definition time_time : Parent float := gets w_clock.

Definition advance (d : float) (w : World) : World :=
  {| w_heap := w_heap w;
     w_clock := (w_clock w + d)%float;
     w_child_runtime := w_child_runtime w;
     w_procs := w_procs w |}.

Definition set_proc (p : pid) (st : proc_state) (w : World) : World :=
  {| w_heap := w_heap w;
     w_clock := w_clock w;
     w_child_runtime := w_child_runtime w;
     w_procs := <[p := st]> (w_procs w) |}.

(** A [RunnableProcessing] object. [p_run] is the complete run of the child
    from the snapshot taken by [start]: how [run_func] ends and the queue as
    it leaves it. *)
Record RunnableProcessing (R : Type) : Type := {
  p_queue : Queue.t (envelope R);
  p_target : Child R;
  p_pid : option pid;
  p_run : option (outcome unit * Queue.t (envelope R))
}.

Arguments p_queue {R} _.
Arguments p_target {R} _.
Arguments p_pid {R} _.
Arguments p_run {R} _.

Section Process.

Context {R : Type}.

(** Lines 19-23. The callable [func] is given with [args] and [kwargs]
    already bound. *)
Definition RunnableProcessing_new (func : Child R) : RunnableProcessing R :=
  {| p_queue := Queue.new 1;
     p_target := func;
     p_pid := None;
     p_run := None |}.

(** The same line for a call with keyword arguments [kwargs]:
    [RunnableProcessing(function, ..., **kwargs)] binds to
    [__init__(self, func, ...)], where [self] and [func] are taken by
    position. A keyword under one of these two names is a [TypeError],
    raised in the caller before any child exists; the first such keyword,
    in the order of the call, is the one reported. *)
Definition init_clash (kwargs : list (string * value)) : option string :=
  fst <$> List.find (λ kv, bool_decide (kv.1 ∈ ["self"; "func"])) kwargs.

Definition init_clash_msg (k : string) : string :=
  "__init__() got multiple values for argument '" +:+ k +:+ "'".

Definition RunnableProcessing_init (func : Child R)
    (kwargs : list (string * value)) : Parent (RunnableProcessing R) :=
  match init_clash kwargs with
  | Some k => raise (Exn TypeError (init_clash_msg k))
  | None => ret (RunnableProcessing_new func)
  end.

(** Lines 25-30, run in the child. A [put] that blocks never returns. *)
Definition queue_put (x : envelope R) (q : Queue.t (envelope R)) :
    outcome unit * Queue.t (envelope R) :=
  match Queue.put x q with
  | Some q' => (Returns tt, q')
  | None => (Diverges, q)
  end.

Definition run_func (func : Child R) (q : Queue.t (envelope R))
    (s : child_state) : outcome unit * Queue.t (envelope R) :=
  match (func s).1 with
  | Returns result => queue_put (Success result) q
  | Raises e => queue_put (Failure e) q
  | Escapes b => (Escapes b, q)
  | Diverges => (Diverges, q)
  end.

(** Lines 32-33. *)
Definition done (proc : RunnableProcessing R) : bool :=
  Queue.full (p_queue proc).

(** Lines 35-36. A [get] that blocks never returns. *)
Definition result (proc : RunnableProcessing R) :
    Parent (envelope R * RunnableProcessing R) :=
  match Queue.get (p_queue proc) with
  | Some (x, q) =>
      ret (x, {| p_queue := q; p_target := p_target proc;
                 p_pid := p_pid proc; p_run := p_run proc |})
  | None => λ w, (Diverges, w)
  end.

(** [Process.start]: fork. The child gets a copy of the caller's heap. *)
Definition start (proc : RunnableProcessing R) :
    Parent (RunnableProcessing R) :=
  λ w, let p := fresh (dom (w_procs w)) in
       let s := {| c_heap := w_heap w; c_log := [] |} in
       (Returns {| p_queue := p_queue proc; p_target := p_target proc;
                   p_pid := Some p;
                   p_run := Some (run_func (p_target proc) (p_queue proc) s) |},
        set_proc p Running w).

(** The exit status of a child by the way its target ends: 0 when it
    returns, the low eight bits of its code for [sys.exit(code)], 1 for any
    other exception that leaves the target. *)
Definition exitcode {A : Type} (o : outcome A) : Z :=
  match o with
  | Returns _ => 0
  | Escapes (SystemExit code) => (code mod 256)%Z
  | _ => 1
  end.

Definition finishes {A : Type} (o : outcome A) : bool :=
  match o with
  | Diverges => false
  | _ => true
  end.

(** [Process.join(timeout)]: the child has exited by the deadline when its
    run finishes and takes no longer than [seconds]; the caller then sees
    the queue as the child left it. Otherwise the caller has waited
    [seconds] and the child is still running. *)
Definition join (seconds : float) (proc : RunnableProcessing R) :
    Parent (RunnableProcessing R) :=
  λ w, match p_pid proc, p_run proc with
       | Some p, Some (o, q) =>
           match w_procs w !! p with
           | Some Running =>
               if finishes o && (w_child_runtime w <=? seconds)%float then
                 (Returns {| p_queue := q; p_target := p_target proc;
                             p_pid := p_pid proc; p_run := p_run proc |},
                  set_proc p (Exited (exitcode o))
                    (advance (w_child_runtime w) w))
               else (Returns proc, advance seconds w)
           | _ => (Returns proc, w)
           end
       | _, _ =>
           (Raises (Exn AssertionError "can only join a started process"), w)
       end.

Definition is_alive (proc : RunnableProcessing R) : Parent bool :=
  gets (λ w, match p_pid proc with
             | Some p =>
                 match w_procs w !! p with
                 | Some Running => true
                 | _ => false
                 end
             | None => false
             end).

(** [Process.terminate]: SIGTERM to a running child, nothing otherwise. *)
Definition terminate (proc : RunnableProcessing R) : Parent unit :=
  modify (λ w, match p_pid proc with
               | Some p =>
                   match w_procs w !! p with
                   | Some Running => set_proc p (Exited (-15)) w
                   | _ => w
                   end
               | None => w
               end).

End Process.

(** ** Sample collaborators, calls and worlds

    Stand-ins for [asteval] and for [str.format], on which the statements
    below are instantiated. *)

(** A table of built-ins overlaid with the keywords. *)
Definition sample_symbol_table (numpy : bool) (kws : symtable) : symtable :=
  kws ∪ {["len" := VBuiltin "len"]}.

(** The runs of four programs: an assignment, an endless loop, a reference
    to an undefined name, and a long loop that the user interrupts from the
    keyboard. Any other text runs to its end and changes nothing. *)
Definition sample_run (kw : Interpreter_kwargs) (code : string)
    (st : symtable) : symtable * outcome unit :=
  if String.eqb code "x = 5" then (<["x" := VInt 5]> st, Returns tt)
  else if String.eqb code "while True: pass" then (st, Diverges)
  else if String.eqb code "y = z" then
    (st, Raises (Exn (ExceptionNamed "NameError") "name 'z' is not defined"))
  else if String.eqb code "for i in range(10 ** 9): pass" then
    (st, Escapes KeyboardInterrupt)
  else (st, Returns tt).

(** The runs of an interpreter started at clock reading [t]: as
    [sample_run], and one more program, which stores the reading of a clock
    that the caller passed in. *)
Definition sample_run_at (t : float) (kw : Interpreter_kwargs)
    (code : string) (st : symtable) : symtable * outcome unit :=
  if String.eqb code "t = now()" then (<["t" := VFloat t]> st, Returns tt)
  else sample_run kw code st.

(** Two interpreters (the one the first call finds and the one the second
    call finds) run [code] alike: the run of [code] does not depend on when
    it is made. *)
Definition same_run
    (run1 run2 : Interpreter_kwargs → string → symtable
                 → symtable * outcome unit)
    (code : string) : Prop :=
  ∀ kw st, run1 kw code st = run2 kw code st.

Definition sample_str (f : float) : string :=
  if (f =? 0.5)%float then "0.5" else "?".

(** A caller whose heap holds the default [{}] and a dict [{'y': 10}], with
    no child yet, and a child that needs [runtime] seconds. *)
Definition sample_world (runtime : float) : World :=
  {| w_heap := {[ default_input_variables := ∅;
                  2%positive := {["y" := VInt 10]} ]};
     w_clock := 1024;
     w_child_runtime := runtime;
     w_procs := ∅ |}.

Definition sample_call (code : string) : call :=
  {| eval_code := code;
     input_variables := Some 2%positive;
     output_variables := Some ["x"; "y"; "z"];
     extra_keywords := [] |}.

Section Evaluator.

(** [asteval.make_symbol_table(use_numpy, **kws)]: the contents of the
    table it returns. *)
Variable make_symbol_table : bool → symtable → symtable.

(** Running source text on an interpreter: the symbol table as the run
    leaves it, and how the run ends. *)
Variable Interpreter_run :
  Interpreter_kwargs → string → symtable → symtable * outcome unit.

(** [str.format] on a float. *)
Variable str_float : float → string.

Definition Interpreter_new (table : loc) (kw : Interpreter_kwargs) :
    Child Interpreter :=
  log (Call_Interpreter table kw) ;;
  ret {| i_symtable := table; i_kwargs := kw |}.

(** [aeval(expr)]: the symbol table is mutated in place. *)
Definition Interpreter_call (aeval : Interpreter) (expr : string) :
    Child unit :=
  log (Call_eval (i_symtable aeval) expr) ;;
  st <- load (i_symtable aeval) ;;
  let r := Interpreter_run (i_kwargs aeval) expr st in
  store (i_symtable aeval) r.1 ;;
  (λ s, (r.2, s)).

(** Line 79: [make_symbol_table(use_numpy=False, range=range,
    **input_variables)]. The callee binds [use_numpy] to its parameter and
    collects the other keywords. *)
Definition evaluate_sym (input_variables : loc) : Child loc :=
  star <- load input_variables ;;
  keywords <- merge_keywords "make_symbol_table"
                [("use_numpy", VBool false); ("range", VBuiltin "range")]
                star ;;
  let kws := delete "use_numpy" keywords in
  sym <- alloc (make_symbol_table false kws) ;;
  log (Call_make_symbol_table false kws sym) ;;
  ret sym.

(** Lines 80-94. *)
Definition evaluate_kwargs : Interpreter_kwargs := {|
  use_numpy := false;
  no_if := false;
  no_for := false;
  no_while := false;
  no_try := true;
  no_functiondef := true;
  no_ifexp := false;
  no_listcomp := true;
  no_augassign := false;
  no_assert := true;
  no_delete := true;
  no_raise := true;
  no_print := true
|}.

(** Line 96: [{x: sym[x] for x in sym if x in output_variables}]. *)
Definition select (output_variables : list string) (sym : symtable) :
    symtable :=
  filter (λ kv : string * value, kv.1 ∈ output_variables) sym.

(** The body of the [def evaluate]. The dict it returns is given by its
    contents, which is what crosses the queue. *)
Definition evaluate_body (eval_code : string) (input_variables : loc)
    (output_variables : list string) : Child symtable :=
  sym <- evaluate_sym input_variables ;;
  aeval <- Interpreter_new sym evaluate_kwargs ;;
  Interpreter_call aeval eval_code ;;
  table <- load sym ;;
  ret (select output_variables table).

(** The parameters of the [def] as a call binds them. *)
Definition bound_input_variables (c : call) : loc :=
  default default_input_variables (input_variables c).

Definition bound_output_variables (c : call) : list string :=
  default default_output_variables (output_variables c).

(** The undecorated function applied to the arguments of a call. *)
Definition evaluate_def (c : call) : Child symtable :=
  match extra_keywords c with
  | kv :: _ =>
      raise (Exn TypeError
               ("evaluate() got an unexpected keyword argument '"
                  +:+ kv.1 +:+ "'"))
  | [] =>
      evaluate_body (eval_code c) (bound_input_variables c)
        (bound_output_variables c)
  end.

(** ** The decorator, lines 39-62 *)

Definition py_assert (b : bool) : Parent unit :=
  if b then ret tt else raise (Exn AssertionError "").

(** Lines 45-60: [inner], in the scope of [seconds], [force_kill] and
    [function], applied to the arguments of a call. *)
Definition inner {Args R : Type} (seconds : float) (force_kill : bool)
    (function : Args → Child R) (args : Args) : Parent R :=
  now <- time_time ;;
  proc <- start (RunnableProcessing_new (function args)) ;;
  proc <- join seconds proc ;;
  alive <- is_alive proc ;;
  if alive : bool then
    (if force_kill then terminate proc else ret tt) ;;
    t <- time_time ;;
    let runtime := (t - now)%float in
    raise (Exn TimeoutException
             ("timed out after " +:+ str_float runtime +:+ " seconds"))
  else
    py_assert (done proc) ;;
    r <- result proc ;;
    match r.1 with
    | Success result => ret result
    | Failure result => raise result
    end.

(** [timeout(seconds, force_kill)(function)] is [inner]. *)
Definition timeout {Args R : Type} (seconds : float) (force_kill : bool)
    (function : Args → Child R) : Args → Parent R :=
  inner seconds force_kill function.

(** Line 65: [@timeout(0.5)], with [force_kill] left at its default. *)
Definition evaluate : call → Parent symtable :=
  timeout 0.5%float true evaluate_def.

(** A call of [evaluate] with any keywords: line 47 binds them to
    [RunnableProcessing.__init__] first; [evaluate] above is the rest, for
    keywords that bind there. *)
Definition evaluate_call (c : call) : Parent symtable :=
  RunnableProcessing_init (evaluate_def c) (extra_keywords c) ;;
  evaluate c.

(** The runner as the caller finds it when [join] has returned. *)
Definition joined {Args R : Type} (seconds : float)
    (function : Args → Child R) (args : Args) :
    Parent (RunnableProcessing R) :=
  proc <- start (RunnableProcessing_new (function args)) ;;
  join seconds proc.

(** Whether the runner is alive, and whether its queue is full, at the
    point where [join] has returned. *)
Definition alive_after_join {Args R : Type} (seconds : float)
    (function : Args → Child R) (args : Args) (w : World) : bool :=
  match (proc <- joined seconds function args ;; is_alive proc) w with
  | (Returns b, _) => b
  | _ => false
  end.

Definition done_after_join {Args R : Type} (seconds : float)
    (function : Args → Child R) (args : Args) (w : World) : bool :=
  match joined seconds function args w with
  | (Returns proc, _) => done proc
  | _ => false
  end.

(** The state in which the forked child starts. *)
Definition snapshot (w : World) : child_state :=
  {| c_heap := w_heap w; c_log := [] |}.

(** ** Abbreviations used in the statements *)

(** The keywords that reach [make_symbol_table] as [**kws]. *)
Definition seeded (d : symtable) : symtable :=
  <["range" := VBuiltin "range"]> d.

Definition after_run {A B} (o : outcome A) (b : B) : outcome B :=
  match o with
  | Returns _ => Returns b
  | Raises e => Raises e
  | Escapes x => Escapes x
  | Diverges => Diverges
  end.

(** The child has exited by the deadline. *)
Definition in_time {Args R : Type} (seconds : float)
    (function : Args → Child R) (args : Args) (w : World) : bool :=
  finishes (function args (snapshot w)).1
  && (w_child_runtime w <=? seconds)%float.

Definition spawned (w : World) : pid := fresh (dom (w_procs w)).

Definition timeout_msg (runtime : float) : string :=
  "timed out after " +:+ str_float runtime +:+ " seconds".

(** What the caller gets from a child that has exited: the value or the
    error in the queue, or the failed assertion on an empty queue. *)
Definition relay {R : Type} (o : outcome R) : outcome R :=
  match o with
  | Returns result => Returns result
  | Raises e => Raises e
  | Escapes _ | Diverges => Raises (Exn AssertionError "")
  end.

(** ** The body of [evaluate], step by step *)

Definition range_clash_msg (k : string) : string :=
  "make_symbol_table() got multiple values for keyword argument '"
    +:+ k +:+ "'".

Lemma merge_keywords_evaluate (d : symtable) (s : child_state) :
  merge_keywords "make_symbol_table"
    [("use_numpy", VBool false); ("range", VBuiltin "range")] d s =
  if bool_decide ("use_numpy" ∈ dom d)
  then (Raises (Exn TypeError (range_clash_msg "use_numpy")), s)
  else if bool_decide ("range" ∈ dom d)
  then (Raises (Exn TypeError (range_clash_msg "range")), s)
  else (Returns (<["use_numpy" := VBool false]>
                   (<["range" := VBuiltin "range"]> d)), s).
Proof.
  unfold merge_keywords. cbn [List.find fst].
  destruct (bool_decide ("use_numpy" ∈ dom d)) eqn:Hn; [reflexivity|].
  destruct (bool_decide ("range" ∈ dom d)) eqn:Hr; [reflexivity|].
  unfold ret. f_equal. f_equal.
  apply bool_decide_eq_false in Hn, Hr.
  apply not_elem_of_dom in Hn, Hr.
  apply map_eq; intros k. cbn [list_to_map foldr uncurry]. 
  rewrite lookup_union.
  destruct (decide (k = "use_numpy")) as [->|Hk1].
  { rewrite Hn. rewrite !lookup_insert_eq. reflexivity. }
  rewrite !(lookup_insert_ne _ "use_numpy") by congruence.
  destruct (decide (k = "range")) as [->|Hk2].
  { rewrite Hr. rewrite !lookup_insert_eq. reflexivity. }
  rewrite !(lookup_insert_ne _ "range") by congruence.
  rewrite lookup_empty. destruct (d !! k); reflexivity.
Qed.

Lemma evaluate_sym_ok (iv : loc) (d : symtable) (s : child_state) :
  c_heap s !! iv = Some d →
  "use_numpy" ∉ dom d →
  "range" ∉ dom d →
  evaluate_sym iv s =
    (Returns (fresh (dom (c_heap s))),
     {| c_heap := <[fresh (dom (c_heap s)) :=
                      make_symbol_table false (seeded d)]> (c_heap s);
        c_log := c_log s ++
                 [Call_make_symbol_table false (seeded d)
                    (fresh (dom (c_heap s)))] |}).
Proof.
  intros Hd Hn Hr. unfold evaluate_sym, bind, load. rewrite Hd.
  rewrite merge_keywords_evaluate.
  rewrite (bool_decide_eq_false_2 _ Hn), (bool_decide_eq_false_2 _ Hr).
  rewrite delete_insert_eq, delete_id.
  2:{ unfold seeded. rewrite lookup_insert_ne by discriminate.
      by apply not_elem_of_dom. }
  reflexivity.
Qed.

Lemma evaluate_sym_clash (iv : loc) (d : symtable) (s : child_state) :
  c_heap s !! iv = Some d →
  "use_numpy" ∈ dom d ∨ "range" ∈ dom d →
  ∃ k, evaluate_sym iv s = (Raises (Exn TypeError (range_clash_msg k)), s).
Proof.
  intros Hd Hc. unfold evaluate_sym, bind, load. rewrite Hd.
  rewrite merge_keywords_evaluate.
  destruct (bool_decide ("use_numpy" ∈ dom d)) eqn:Hn; [by eexists|].
  destruct (bool_decide ("range" ∈ dom d)) eqn:Hr; [by eexists|].
  apply bool_decide_eq_false in Hn, Hr. tauto.
Qed.

Lemma evaluate_sym_dangling (iv : loc) (s : child_state) :
  c_heap s !! iv = None →
  evaluate_sym iv s =
    (Raises (Exn TypeError "argument must be a mapping"), s).
Proof. intros Hd. unfold evaluate_sym, bind, load. by rewrite Hd. Qed.

Lemma evaluate_body_ok (code : string) (iv : loc) (outs : list string)
    (d : symtable) (s : child_state) :
  c_heap s !! iv = Some d →
  "use_numpy" ∉ dom d →
  "range" ∉ dom d →
  let l := fresh (dom (c_heap s)) in
  let r := Interpreter_run evaluate_kwargs code
             (make_symbol_table false (seeded d)) in
  evaluate_body code iv outs s =
    (after_run r.2 (select outs r.1),
     {| c_heap := <[l := r.1]>
                    (<[l := make_symbol_table false (seeded d)]> (c_heap s));
        c_log := c_log s ++
                 [Call_make_symbol_table false (seeded d) l;
                  Call_Interpreter l evaluate_kwargs;
                  Call_eval l code] |}).
Proof.
  intros Hd Hn Hr l r. unfold evaluate_body.
  unfold bind at 1. rewrite (evaluate_sym_ok iv d s Hd Hn Hr).
  fold l. unfold Interpreter_new, Interpreter_call, log, store, load,
    modify, ret, bind.
  cbn [c_heap c_log i_symtable i_kwargs fst snd].
  rewrite lookup_insert_eq. cbn [fst snd]. fold r.
  rewrite <- !app_assoc. cbn [app].
  destruct r.2 as [[]| | |]; cbn [after_run]; try reflexivity.
  cbn [c_heap c_log]. by rewrite lookup_insert_eq.
Qed.

Lemma evaluate_body_failed (code : string) (iv : loc) (outs : list string)
    (s : child_state) :
  match c_heap s !! iv with
  | Some d => "use_numpy" ∈ dom d ∨ "range" ∈ dom d
  | None => True
  end →
  ∃ msg, evaluate_body code iv outs s = (Raises (Exn TypeError msg), s).
Proof.
  intros H. unfold evaluate_body. unfold bind at 1.
  destruct (c_heap s !! iv) as [d|] eqn:Hd.
  - destruct (evaluate_sym_clash iv d s Hd H) as [k ->]. by eexists.
  - rewrite (evaluate_sym_dangling iv s Hd). by eexists.
Qed.

(** ** The runner and the decorator, case by case *)

Lemma run_func_new {R : Type} (func : Child R) (s : child_state) :
  run_func func (Queue.new 1) s =
  match (func s).1 with
  | Returns result => (Returns tt, Queue.Make 1 [Success result])
  | Raises e => (Returns tt, Queue.Make 1 [Failure e])
  | Escapes b => (Escapes b, Queue.new 1)
  | Diverges => (Diverges, Queue.new 1)
  end.
Proof. unfold run_func. destruct (func s).1; reflexivity. Qed.

Lemma finishes_run_func {R : Type} (func : Child R) (s : child_state) :
  finishes (run_func func (Queue.new 1) s).1 = finishes (func s).1.
Proof. rewrite run_func_new. destruct (func s).1; reflexivity. Qed.

Lemma joined_eq {Args R : Type} (seconds : float)
    (function : Args → Child R) (args : Args) (w : World) :
  let run := run_func (function args) (Queue.new 1) (snapshot w) in
  joined seconds function args w =
  if in_time seconds function args w
  then (Returns {| p_queue := run.2; p_target := function args;
                   p_pid := Some (spawned w); p_run := Some run |},
        set_proc (spawned w) (Exited (exitcode run.1))
          (advance (w_child_runtime w) (set_proc (spawned w) Running w)))
  else (Returns {| p_queue := Queue.new 1; p_target := function args;
                   p_pid := Some (spawned w); p_run := Some run |},
        advance seconds (set_proc (spawned w) Running w)).
Proof.
  intros run. unfold in_time. rewrite <- finishes_run_func.
  unfold joined, bind, start, join, RunnableProcessing_new.
  cbn [p_pid p_run p_queue p_target]. fold (snapshot w). fold (spawned w).
  fold run. destruct run as [o q]. cbn [fst snd set_proc w_procs].
  rewrite lookup_insert_eq.
  change (w_child_runtime (set_proc (spawned w) Running w))
    with (w_child_runtime w).
  destruct (finishes o && (w_child_runtime w <=? seconds)%float); reflexivity.
Qed.

Lemma alive_after_join_eq {Args R : Type} (seconds : float)
    (function : Args → Child R) (args : Args) (w : World) :
  alive_after_join seconds function args w =
  negb (in_time seconds function args w).
Proof.
  unfold alive_after_join. unfold bind at 1. rewrite joined_eq.
  destruct (in_time seconds function args w);
    unfold is_alive, gets; cbn [p_pid set_proc advance w_procs];
    rewrite lookup_insert_eq; reflexivity.
Qed.

Lemma done_after_join_eq {Args R : Type} (seconds : float)
    (function : Args → Child R) (args : Args) (w : World) :
  done_after_join seconds function args w =
  in_time seconds function args w
  && match (function args (snapshot w)).1 with
     | Returns _ | Raises _ => true
     | _ => false
     end.
Proof.
  unfold done_after_join. rewrite joined_eq, run_func_new.
  destruct (in_time seconds function args w); cbn [andb];
    [destruct (function args (snapshot w)).1|]; reflexivity.
Qed.

(** The deadline passes with the child still running. *)
Lemma timeout_late {Args R : Type} (seconds : float) (force_kill : bool)
    (function : Args → Child R) (args : Args) (w : World) :
  in_time seconds function args w = false →
  timeout seconds force_kill function args w =
  (Raises (Exn TimeoutException
             (timeout_msg ((w_clock w + seconds) - w_clock w)%float)),
   let w1 := advance seconds (set_proc (spawned w) Running w) in
   if force_kill then set_proc (spawned w) (Exited (-15)) w1 else w1).
Proof.
  intros Hlate. pose proof (joined_eq seconds function args w) as Hj.
  rewrite Hlate in Hj. unfold joined, bind in Hj.
  unfold timeout, inner, bind, time_time, gets.
  destruct (start _ w) as [[proc0| | |] w0]; try discriminate Hj.
  rewrite Hj. unfold is_alive, gets. cbn [p_pid set_proc advance w_procs].
  rewrite lookup_insert_eq.
  destruct force_kill; unfold terminate, modify, ret, raise;
    cbn [p_pid set_proc advance w_procs w_clock];
    rewrite ?lookup_insert_eq; reflexivity.
Qed.

(** The child has exited by the deadline. *)
Lemma timeout_in_time {Args R : Type} (seconds : float) (force_kill : bool)
    (function : Args → Child R) (args : Args) (w : World) :
  in_time seconds function args w = true →
  timeout seconds force_kill function args w =
  (relay (function args (snapshot w)).1,
   set_proc (spawned w)
     (Exited (exitcode
                (run_func (function args) (Queue.new 1) (snapshot w)).1))
     (advance (w_child_runtime w) (set_proc (spawned w) Running w))).
Proof.
  intros Hin. pose proof (joined_eq seconds function args w) as Hj.
  rewrite Hin in Hj. unfold joined, bind in Hj.
  unfold timeout, inner, bind, time_time, gets.
  destruct (start _ w) as [[proc0| | |] w0]; try discriminate Hj.
  rewrite Hj. unfold is_alive, gets. cbn [p_pid set_proc advance w_procs].
  rewrite lookup_insert_eq. rewrite run_func_new. unfold relay.
  destruct (function args (snapshot w)).1; reflexivity.
Qed.

(** ** Properties of [evaluate] *)

(** C1. If the child is still alive when [join(0.5)] has returned,
    [evaluate] terminates it and raises a [TimeoutException] whose message
    carries the elapsed wall-clock time (the clock read after the
    termination minus the clock read before the start); no child is left
    running and no output mapping is returned. *)
Theorem evaluate_timeout (c : call) (w : World) :
  alive_after_join 0.5%float evaluate_def c w = true →
  (evaluate c w).1 =
    Raises (Exn TimeoutException
              (timeout_msg (w_clock (evaluate c w).2 - w_clock w)%float))
  ∧ w_procs (evaluate c w).2 !! spawned w = Some (Exited (-15))
  ∧ (∀ p, w_procs (evaluate c w).2 !! p = Some Running →
          w_procs w !! p = Some Running)
  ∧ ∀ m, (evaluate c w).1 ≠ Returns m.
Proof.
  rewrite alive_after_join_eq. intros Hlate%negb_true_iff.
  unfold evaluate. rewrite (timeout_late _ _ _ _ _ Hlate).
  cbn [fst snd set_proc advance w_clock w_procs].
  split; [reflexivity|]. split; [apply lookup_insert_eq|].
  split; [|discriminate].
  intros p. destruct (decide (p = spawned w)) as [->|Hp].
  - rewrite lookup_insert_eq. discriminate.
  - rewrite !lookup_insert_ne by congruence. trivial.
Qed.

(** C3. When the callable raises an error and the child has exited by the
    deadline, [evaluate] raises that very error: the same class and message,
    neither wrapped nor turned into a string. *)
Theorem evaluate_reraises (c : call) (w : World) (e : exn) :
  alive_after_join 0.5%float evaluate_def c w = false →
  (evaluate_def c (snapshot w)).1 = Raises e →
  (evaluate c w).1 = Raises e.
Proof.
  rewrite alive_after_join_eq. intros Hin%negb_false_iff He.
  unfold evaluate. rewrite (timeout_in_time _ _ _ _ _ Hin).
  cbn [fst]. by rewrite He.
Qed.

(** C7. If the child has exited by the deadline and the queue is not full,
    the call fails with an [AssertionError]; it returns no mapping, the
    empty one included. *)
Theorem evaluate_finished_empty (c : call) (w : World) :
  alive_after_join 0.5%float evaluate_def c w = false →
  done_after_join 0.5%float evaluate_def c w = false →
  (evaluate c w).1 = Raises (Exn AssertionError "")
  ∧ ∀ m, (evaluate c w).1 ≠ Returns m.
Proof.
  rewrite alive_after_join_eq, done_after_join_eq.
  intros Hin%negb_false_iff. rewrite Hin. cbn [andb]. intros Hdone.
  unfold evaluate. rewrite (timeout_in_time _ _ _ _ _ Hin). cbn [fst].
  unfold relay.
  destruct (evaluate_def c (snapshot w)).1; try discriminate Hdone;
    (split; [reflexivity|discriminate]).
Qed.

Lemma select_dom (outs : list string) (table : symtable) :
  dom (select outs table) = dom table ∩ list_to_set outs.
Proof.
  unfold select. apply dom_filter_L. intros k.
  rewrite elem_of_intersection, elem_of_dom, elem_of_list_to_set.
  unfold is_Some. cbn [fst]. split.
  - intros [[v Hv] Hk]. eauto.
  - intros (v & Hv & Hk). eauto.
Qed.

Lemma select_lookup (outs : list string) (table : symtable) (k : string) :
  k ∈ outs → select outs table !! k = table !! k.
Proof.
  intros Hk. unfold select. destruct (table !! k) as [v|] eqn:Hv.
  - by apply map_lookup_filter_Some.
  - apply map_lookup_filter_None. left. exact Hv.
Qed.

(** A call of the undecorated function that returns went through every
    step of the body. *)
Lemma evaluate_def_returns (c : call) (s : child_state) (m : symtable) :
  (evaluate_def c s).1 = Returns m →
  ∃ d, extra_keywords c = []
       ∧ c_heap s !! bound_input_variables c = Some d
       ∧ ("use_numpy" ∉ dom d)
       ∧ ("range" ∉ dom d)
       ∧ evaluate_def c s =
           evaluate_body (eval_code c) (bound_input_variables c)
             (bound_output_variables c) s.
Proof.
  unfold evaluate_def. destruct (extra_keywords c) as [|kv rest];
    [|discriminate].
  intros Hm.
  destruct (c_heap s !! bound_input_variables c) as [d|] eqn:Hd.
  - destruct (decide ("use_numpy" ∈ dom d)) as [Hn|Hn].
    { destruct (evaluate_body_failed (eval_code c) (bound_input_variables c)
                  (bound_output_variables c) s) as [msg Hf].
      - rewrite Hd. by left.
      - rewrite Hf in Hm. discriminate Hm. }
    destruct (decide ("range" ∈ dom d)) as [Hr|Hr].
    { destruct (evaluate_body_failed (eval_code c) (bound_input_variables c)
                  (bound_output_variables c) s) as [msg Hf].
      - rewrite Hd. by right.
      - rewrite Hf in Hm. discriminate Hm. }
    by exists d.
  - destruct (evaluate_body_failed (eval_code c) (bound_input_variables c)
                (bound_output_variables c) s) as [msg Hf].
    + by rewrite Hd.
    + rewrite Hf in Hm. discriminate Hm.
Qed.

(** A call of [evaluate] that returns relays what the callable returned in
    the child. *)
Lemma evaluate_returns (c : call) (w : World) (m : symtable) :
  (evaluate c w).1 = Returns m →
  (evaluate_def c (snapshot w)).1 = Returns m.
Proof.
  unfold evaluate.
  destruct (in_time 0.5%float evaluate_def c w) eqn:Hin.
  - rewrite (timeout_in_time _ _ _ _ _ Hin). cbn [fst]. unfold relay.
    destruct (evaluate_def c (snapshot w)).1; congruence.
  - rewrite (timeout_late _ _ _ _ _ Hin). discriminate.
Qed.

(** C2. A call that returns yields a mapping whose keys are exactly the
    requested names that are keys of the symbol table as the run of the code
    left it, each with the value it has there: a requested name that the
    table lacks is left out, and no other name gets in. *)
Theorem evaluate_output_filter (c : call) (w : World) (m : symtable) :
  (evaluate c w).1 = Returns m →
  ∃ (sym : loc) (table : symtable),
    let s' := (evaluate_def c (snapshot w)).2 in
    last (c_log s') = Some (Call_eval sym (eval_code c))
    ∧ c_heap s' !! sym = Some table
    ∧ dom m = dom table ∩ list_to_set (bound_output_variables c)
    ∧ ∀ x, x ∈ bound_output_variables c → m !! x = table !! x.
Proof.
  intros Hm%evaluate_returns.
  destruct (evaluate_def_returns c _ m Hm) as (d & _ & Hd & Hn & Hr & Hbody).
  rewrite Hbody in Hm |- *.
  rewrite (evaluate_body_ok _ _ _ d _ Hd Hn Hr) in Hm |- *.
  cbn [fst snd c_heap c_log snapshot] in Hm |- *.
  eexists _, _. split; [reflexivity|]. split; [apply lookup_insert_eq|].
  destruct (Interpreter_run _ _ _).2; try discriminate Hm.
  cbn [after_run] in Hm. injection Hm as Hm. subst m.
  split; [apply select_dom|]. intros x Hx. by apply select_lookup.
Qed.

(** The calls into [asteval] that one call of the undecorated function
    makes: none when the arguments are rejected, else the three of the
    body. *)
Lemma evaluate_def_cases (c : call) (s : child_state) :
  (evaluate_def c s).2 = s
  ∨ ∃ d r, (evaluate_def c s).2 =
           {| c_heap := <[fresh (dom (c_heap s)) := r]>
                          (<[fresh (dom (c_heap s)) :=
                               make_symbol_table false (seeded d)]> (c_heap s));
              c_log := c_log s ++
                       [Call_make_symbol_table false (seeded d)
                          (fresh (dom (c_heap s)));
                        Call_Interpreter (fresh (dom (c_heap s)))
                          evaluate_kwargs;
                        Call_eval (fresh (dom (c_heap s))) (eval_code c)] |}.
Proof.
  unfold evaluate_def. destruct (extra_keywords c) as [|kv rest];
    [|by left].
  destruct (c_heap s !! bound_input_variables c) as [d|] eqn:Hd.
  - destruct (decide ("use_numpy" ∈ dom d)) as [Hn|Hn].
    { left. destruct (evaluate_body_failed (eval_code c)
                        (bound_input_variables c) (bound_output_variables c) s)
        as [msg ->]; [rewrite Hd; by left|reflexivity]. }
    destruct (decide ("range" ∈ dom d)) as [Hr|Hr].
    { left. destruct (evaluate_body_failed (eval_code c)
                        (bound_input_variables c) (bound_output_variables c) s)
        as [msg ->]; [rewrite Hd; by right|reflexivity]. }
    right. rewrite (evaluate_body_ok _ _ _ d _ Hd Hn Hr). by eexists _, _.
  - left. destruct (evaluate_body_failed (eval_code c)
                      (bound_input_variables c) (bound_output_variables c) s)
      as [msg ->]; [by rewrite Hd|reflexivity].
Qed.


(** C10. A call of [evaluate] leaves the caller's heap as it found it, the
    dict passed as [input_variables] and the shared default [{}] included;
    and in the child, the undecorated function only adds a dict of its own:
    every dict that existed keeps its contents. *)
Theorem evaluate_preserves_input_variables (c : call) (w : World)
    (s : child_state) :
  w_heap (evaluate c w).2 = w_heap w
  ∧ c_heap s ⊆ c_heap (evaluate_def c s).2.
Proof.
  split.
  - unfold evaluate. destruct (in_time 0.5%float evaluate_def c w) eqn:Hin.
    + by rewrite (timeout_in_time _ _ _ _ _ Hin).
    + by rewrite (timeout_late _ _ _ _ _ Hin).
  - destruct (evaluate_def_cases c s) as [->|(d & r & ->)]; [done|].
    cbn [c_heap]. rewrite insert_insert_eq. apply insert_subseteq.
    apply not_elem_of_dom, is_fresh.
Qed.

(** C5, as the code has it. The deadline is the constant [0.5] of the
    decorator, whatever the arguments of the call. A call with a keyword
    named [self] or [func] raises [TypeError] in the caller, and no child is
    started. For any other call: when the child has not exited within 0.5
    seconds the call raises [TimeoutException] with the elapsed seconds in
    its message; when it has, a call with a keyword other than the three
    parameters ([timeout_seconds], say) raises [TypeError], and a call
    without such a keyword relays the outcome of the body. *)
Theorem evaluate_call_fixed_deadline (c : call) (w : World) :
  match init_clash (extra_keywords c) with
  | Some k => evaluate_call c w = (Raises (Exn TypeError (init_clash_msg k)), w)
  | None =>
      (evaluate_call c w).1 =
      if finishes (evaluate_def c (snapshot w)).1
         && (w_child_runtime w <=? 0.5)%float
      then match extra_keywords c with
           | kv :: _ =>
               Raises (Exn TypeError
                         ("evaluate() got an unexpected keyword argument '"
                            +:+ kv.1 +:+ "'"))
           | [] =>
               relay (evaluate_body (eval_code c) (bound_input_variables c)
                        (bound_output_variables c) (snapshot w)).1
           end
      else Raises (Exn TimeoutException
                     (timeout_msg ((w_clock w + 0.5) - w_clock w)%float))
  end.
Proof.
  unfold evaluate_call, RunnableProcessing_init, bind.
  destruct (init_clash (extra_keywords c)) as [k|]; [reflexivity|].
  cbn [ret]. fold (in_time 0.5%float evaluate_def c w). unfold evaluate.
  destruct (in_time 0.5%float evaluate_def c w) eqn:Hin.
  - rewrite (timeout_in_time _ _ _ _ _ Hin). cbn [fst].
    unfold evaluate_def. by destruct (extra_keywords c).
  - by rewrite (timeout_late _ _ _ _ _ Hin).
Qed.

(** C6, as the code has it. Started on its empty queue, [run_func] pushes
    [Success] when the callable returns and [Failure] when it raises an
    [Exception], and pushes nothing when the callable never returns or
    leaves with a [BaseException] that is not an [Exception]; the queue has
    capacity one and no later [put] makes it hold more than one item. *)
Theorem run_func_pushes {R : Type} (func : Child R) (s : child_state) :
  let q := (run_func func (Queue.new 1) s).2 in
  Queue.items q =
    match (func s).1 with
    | Returns result => [Success result]
    | Raises e => [Failure e]
    | Escapes _ | Diverges => []
    end
  ∧ Queue.maxsize q = 1
  ∧ length (Queue.items q) ≤ 1
  ∧ ∀ x, from_option (λ q', length (Queue.items q')) 0 (Queue.put x q) ≤ 1.
Proof.
  cbn zeta. rewrite run_func_new.
  destruct (func s).1; cbn; repeat split; try lia; intros x; cbn; lia.
Qed.

(** C8 at the inputs [{'use_numpy': 7}] and [{'range': 7}]. The
    undecorated function raises [TypeError] at line 79, where the name
    clashes with a keyword that the call already gives; no symbol table is
    built, and [evaluate] hands the [TypeError] to its caller. *)
Theorem evaluate_def_reserved_name (code : string)
    (outs : option (list string)) :
  let c := {| eval_code := code; input_variables := Some 2%positive;
              output_variables := outs; extra_keywords := [] |} in
  let w := λ name, {| w_heap := {[ 2%positive := {[ name := VInt 7 ]} ]};
                      w_clock := 1024;
                      w_child_runtime := 0.125;
                      w_procs := ∅ |} in
  let error := λ name, Exn TypeError (range_clash_msg name) in
  (evaluate_def c (snapshot (w "use_numpy")) =
     (Raises (error "use_numpy"), snapshot (w "use_numpy"))
   ∧ (evaluate c (w "use_numpy")).1 = Raises (error "use_numpy"))
  ∧ (evaluate_def c (snapshot (w "range")) =
       (Raises (error "range"), snapshot (w "range"))
     ∧ (evaluate c (w "range")).1 = Raises (error "range")).
Proof. repeat split; reflexivity. Qed.

(** ** Further properties of the decorator and of the runner *)

Lemma timeout_outcome {Args R : Type} (seconds : float) (force_kill : bool)
    (function : Args → Child R) (args : Args) (w : World) :
  (timeout seconds force_kill function args w).1 =
  if in_time seconds function args w
  then relay (function args (snapshot w)).1
  else Raises (Exn TimeoutException
                 (timeout_msg ((w_clock w + seconds) - w_clock w)%float)).
Proof.
  destruct (in_time seconds function args w) eqn:Hin.
  - by rewrite (timeout_in_time _ _ _ _ _ Hin).
  - by rewrite (timeout_late _ _ _ _ _ Hin).
Qed.

Lemma timeout_ext {Args Args' R : Type} (seconds : float) (force_kill : bool)
    (function : Args → Child R) (function' : Args' → Child R)
    (args : Args) (args' : Args') (w : World) :
  (function args (snapshot w)).1 = (function' args' (snapshot w)).1 →
  timeout seconds force_kill function args w =
  timeout seconds force_kill function' args' w.
Proof.
  intros Heq.
  assert (in_time seconds function args w = in_time seconds function' args' w)
    as Hin by (unfold in_time; by rewrite Heq).
  destruct (in_time seconds function' args' w) eqn:Hin'.
  - rewrite (timeout_in_time _ _ _ _ _ Hin), (timeout_in_time _ _ _ _ _ Hin').
    rewrite !run_func_new, Heq. reflexivity.
  - rewrite (timeout_late _ _ _ _ _ Hin), (timeout_late _ _ _ _ _ Hin').
    reflexivity.
Qed.

(** How a call of the undecorated function ends, from its arguments and the
    heap of the process that runs it. *)
Lemma evaluate_def_outcome (c : call) (s : child_state) :
  (evaluate_def c s).1 =
  match extra_keywords c with
  | kv :: _ =>
      Raises (Exn TypeError
                ("evaluate() got an unexpected keyword argument '"
                   +:+ kv.1 +:+ "'"))
  | [] =>
      match c_heap s !! bound_input_variables c with
      | None => Raises (Exn TypeError "argument must be a mapping")
      | Some d =>
          if bool_decide ("use_numpy" ∈ dom d)
          then Raises (Exn TypeError (range_clash_msg "use_numpy"))
          else if bool_decide ("range" ∈ dom d)
          then Raises (Exn TypeError (range_clash_msg "range"))
          else
            let r := Interpreter_run evaluate_kwargs (eval_code c)
                       (make_symbol_table false (seeded d)) in
            after_run r.2 (select (bound_output_variables c) r.1)
      end
  end.
Proof.
  unfold evaluate_def. destruct (extra_keywords c) as [|kv rest];
    [|reflexivity].
  destruct (c_heap s !! bound_input_variables c) as [d|] eqn:Hd.
  - destruct (bool_decide ("use_numpy" ∈ dom d)) eqn:Hn.
    { unfold evaluate_body, evaluate_sym, bind, load. rewrite Hd.
      rewrite merge_keywords_evaluate, Hn. reflexivity. }
    destruct (bool_decide ("range" ∈ dom d)) eqn:Hr.
    { unfold evaluate_body, evaluate_sym, bind, load. rewrite Hd.
      rewrite merge_keywords_evaluate, Hn, Hr. reflexivity. }
    apply bool_decide_eq_false in Hn, Hr.
    by rewrite (evaluate_body_ok _ _ _ d _ Hd Hn Hr).
  - unfold evaluate_body. unfold bind at 1.
    by rewrite (evaluate_sym_dangling _ _ Hd).
Qed.

Lemma select_ext (outs outs' : list string) (table : symtable) :
  (∀ x, x ∈ outs ↔ x ∈ outs') → select outs table = select outs' table.
Proof.
  intros H. unfold select. apply map_filter_ext. intros k v _. apply H.
Qed.


Lemma timeout_returns_spec {Args R : Type} (seconds : float)
    (force_kill : bool) (function : Args → Child R) (args : Args)
    (w : World) (v : R) :
  (timeout seconds force_kill function args w).1 = Returns v
  ↔ (function args (snapshot w)).1 = Returns v
    ∧ (w_child_runtime w <=? seconds)%float = true.
Proof.
  rewrite timeout_outcome. unfold in_time, relay.
  destruct (function args (snapshot w)).1 as [v'| | |]; cbn [finishes andb];
    destruct (w_child_runtime w <=? seconds)%float;
    split; try (intros [? ?]); try intros ?; try split; congruence.
Qed.

(** X1. A decorated call never returns a value that the callable did not
    return: if the call returns [v], the run of the callable in the child
    returned [v]. *)
Theorem timeout_returns_from_child {Args R : Type} (seconds : float)
    (force_kill : bool) (function : Args → Child R) (args : Args)
    (w : World) (v : R) :
  (timeout seconds force_kill function args w).1 = Returns v →
  (function args (snapshot w)).1 = Returns v.
Proof.
  destruct (in_time seconds function args w) eqn:Hin.
  - rewrite (timeout_in_time _ _ _ _ _ Hin). cbn [fst]. unfold relay.
    destruct (function args (snapshot w)).1; congruence.
  - rewrite (timeout_late _ _ _ _ _ Hin). discriminate.
Qed.

(** X3. When the deadline passes, [force_kill=False] raises the same
    [TimeoutException] as [force_kill=True] but leaves the child running,
    where [force_kill=True] has terminated it. *)
Theorem timeout_without_force_kill {Args R : Type} (seconds : float)
    (function : Args → Child R) (args : Args) (w : World) :
  alive_after_join seconds function args w = true →
  (timeout seconds false function args w).1 =
    (timeout seconds true function args w).1
  ∧ w_procs (timeout seconds false function args w).2 !! spawned w
    = Some Running
  ∧ w_procs (timeout seconds true function args w).2 !! spawned w
    = Some (Exited (-15)).
Proof.
  rewrite alive_after_join_eq. intros Hlate%negb_true_iff.
  rewrite !(timeout_late _ _ _ _ _ Hlate).
  cbn [fst snd set_proc advance w_procs]. rewrite !lookup_insert_eq. done.
Qed.

(** X7. A callable that ends in a [BaseException] that is no [Exception]
    within the deadline makes the decorated call fail with
    [AssertionError]: [run_func] does not catch it, the queue stays empty,
    and the original is lost. *)
Theorem timeout_base_exception {Args R : Type} (seconds : float)
    (force_kill : bool) (function : Args → Child R) (args : Args)
    (w : World) (b : base_exc) :
  (function args (snapshot w)).1 = Escapes b →
  (w_child_runtime w <=? seconds)%float = true →
  (timeout seconds force_kill function args w).1
  = Raises (Exn AssertionError "").
Proof.
  intros Hb Hrt. rewrite timeout_outcome. unfold in_time.
  by rewrite Hb, Hrt.
Qed.

(** X9. On a queue that is already full [run_func] adds nothing and never
    returns: when the callable returns or raises, the [put] blocks. *)
Theorem run_func_full_queue {R : Type} (func : Child R)
    (q : Queue.t (envelope R)) (s : child_state) :
  Queue.full q = true →
  (run_func func q s).2 = q
  ∧ (run_func func q s).1 ≠ Returns tt
  ∧ ((∃ v, (func s).1 = Returns v) ∨ (∃ e, (func s).1 = Raises e) →
     (run_func func q s).1 = Diverges).
Proof.
  intros Hfull. unfold run_func, queue_put, Queue.put. rewrite Hfull.
  destruct (func s).1; cbn [fst snd]; repeat split; try discriminate;
    intros [[? ?]|[? ?]]; congruence.
Qed.

Lemma select_nil (table : symtable) : select [] table = ∅.
Proof.
  apply map_empty. intros k. unfold select. apply map_lookup_filter_None.
  right. intros v _ H. cbn [fst] in H. by apply elem_of_nil in H.
Qed.

(** A call of [evaluate] that returns went through the whole body in the
    child, within the deadline. *)
Lemma evaluate_returns_select (c : call) (w : World) (m : symtable) :
  (evaluate c w).1 = Returns m →
  ∃ d, extra_keywords c = []
       ∧ w_heap w !! bound_input_variables c = Some d
       ∧ ("use_numpy" ∉ dom d)
       ∧ ("range" ∉ dom d)
       ∧ (w_child_runtime w <=? 0.5)%float = true
       ∧ (Interpreter_run evaluate_kwargs (eval_code c)
            (make_symbol_table false (seeded d))).2 = Returns tt
       ∧ m = select (bound_output_variables c)
               (Interpreter_run evaluate_kwargs (eval_code c)
                  (make_symbol_table false (seeded d))).1.
Proof.
  unfold evaluate. intros [Hm Hrt]%timeout_returns_spec.
  rewrite evaluate_def_outcome in Hm. cbn [snapshot c_heap] in Hm.
  destruct (extra_keywords c); [|discriminate].
  destruct (w_heap w !! bound_input_variables c) as [d|]; [|discriminate].
  destruct (bool_decide ("use_numpy" ∈ dom d)) eqn:Hn; [discriminate|].
  destruct (bool_decide ("range" ∈ dom d)) eqn:Hr; [discriminate|].
  apply bool_decide_eq_false in Hn, Hr.
  cbn zeta in Hm. exists d. repeat split; try done.
  - destruct (Interpreter_run _ _ _).2 as [[]| | |]; done.
  - destruct (Interpreter_run _ _ _).2; cbn [after_run] in Hm; congruence.
Qed.

(** X10. A call that requests no outputs ([output_variables] omitted or
    empty) returns the empty mapping whenever it returns. *)
Theorem evaluate_no_outputs_requested (c : call) (w : World) (m : symtable) :
  bound_output_variables c = [] →
  (evaluate c w).1 = Returns m →
  m = ∅.
Proof.
  intros Houts (d & _ & _ & _ & _ & _ & _ & ->)%evaluate_returns_select.
  rewrite Houts. apply select_nil.
Qed.


(** X12. Only the set of requested names matters: two calls that differ in
    the order or in the repetitions of [output_variables] have the same
    result and the same effect on the caller. *)
Theorem evaluate_outputs_as_set (code : string) (iv : option loc)
    (extras : list (string * value)) (outs outs' : list string) (w : World) :
  let c := λ o, {| eval_code := code; input_variables := iv;
                   output_variables := Some o; extra_keywords := extras |} in
  (∀ x, x ∈ outs ↔ x ∈ outs') →
  evaluate (c outs) w = evaluate (c outs') w.
Proof.
  intros c Hset. unfold evaluate. apply timeout_ext.
  rewrite !evaluate_def_outcome.
  change (extra_keywords (c outs)) with extras.
  change (extra_keywords (c outs')) with extras.
  change (bound_input_variables (c outs))
    with (bound_input_variables (c outs')).
  change (eval_code (c outs)) with code.
  change (eval_code (c outs')) with code.
  change (bound_output_variables (c outs)) with outs.
  change (bound_output_variables (c outs')) with outs'.
  destruct extras; [|reflexivity].
  destruct (c_heap (snapshot w) !! bound_input_variables (c outs'));
    [|reflexivity].
  cbn zeta. by rewrite (select_ext outs outs' _ Hset).
Qed.

(** X13. For a call without extra keywords whose [input_variables] uses
    neither [use_numpy] nor [range], the child makes exactly three calls
    into [asteval]: [make_symbol_table] with [use_numpy=False] and keywords
    that are the entries of [input_variables] together with
    [range=range], giving a dict object that did not exist before; the
    [Interpreter] over that object; and one run of [eval_code] on it. *)
Theorem evaluate_seeds_symbol_table (c : call) (h : heap) (d : symtable) :
  extra_keywords c = [] →
  h !! bound_input_variables c = Some d →
  "use_numpy" ∉ dom d →
  "range" ∉ dom d →
  ∃ (kws : symtable) (table : loc),
    c_log (evaluate_def c {| c_heap := h; c_log := [] |}).2
    = [Call_make_symbol_table false kws table;
       Call_Interpreter table evaluate_kwargs;
       Call_eval table (eval_code c)]
    ∧ h !! table = None
    ∧ kws !! "range" = Some (VBuiltin "range")
    ∧ (∀ k, k ≠ "range" → kws !! k = d !! k)
    ∧ dom kws = {["range"]} ∪ dom d.
Proof.
  intros Hex Hd Hn Hr. unfold evaluate_def. rewrite Hex.
  rewrite (evaluate_body_ok _ _ _ d {| c_heap := h; c_log := [] |} Hd Hn Hr).
  cbn [snd c_log c_heap app].
  exists (seeded d), (fresh (dom h)). split; [reflexivity|].
  split; [apply not_elem_of_dom, is_fresh|]. unfold seeded.
  split; [apply lookup_insert_eq|]. split.
  - intros k Hk. by apply lookup_insert_ne.
  - apply dom_insert_L.
Qed.


End Evaluator.

(** ** Two calls, each with the interpreter it finds *)


(** Without [same_run] the conclusion fails: a program that stores the
    reading of a clock returns one mapping at 1024 and another at 7. *)
Lemma evaluate_clock_dependent :
  let c := {| eval_code := "t = now()"; input_variables := None;
              output_variables := Some ["t"]; extra_keywords := [] |} in
  let w := sample_world 0.125 in
  ¬ same_run (sample_run_at 1024) (sample_run_at 7) (eval_code c)
  ∧ (evaluate sample_symbol_table (sample_run_at 1024) sample_str c w).1
    = Returns {[ "t" := VFloat 1024 ]}
  ∧ (evaluate sample_symbol_table (sample_run_at 7) sample_str c w).1
    = Returns {[ "t" := VFloat 7 ]}
  ∧ ({[ "t" := VFloat 1024 ]} : symtable) ≠ {[ "t" := VFloat 7 ]}.
Proof.
  intros c w.
  assert (Hne : ({[ "t" := VFloat 1024 ]} : symtable) ≠ {[ "t" := VFloat 7 ]}).
  { intros H.
    apply (f_equal (λ m : symtable,
                      match m !! "t" with
                      | Some (VFloat f) => (f =? 7)%float
                      | _ => false
                      end)) in H.
    vm_compute in H. discriminate H. }
  split; [|split; [vm_compute; reflexivity|split;
                   [vm_compute; reflexivity|exact Hne]]].
  intros H. specialize (H evaluate_kwargs ∅).
  apply (f_equal fst) in H. apply Hne. exact H.
Qed.

(** ** The statements at the sample collaborators *)

Lemma evaluate_timeout_witness :
  let ev := evaluate sample_symbol_table sample_run sample_str in
  let c := sample_call "while True: pass" in
  let w := sample_world 0.125 in
  alive_after_join 0.5%float (evaluate_def sample_symbol_table sample_run) c w
    = true
  ∧ (ev c w).1 = Raises (Exn TimeoutException "timed out after 0.5 seconds")
  ∧ w_procs (ev c w).2 !! 1%positive = Some (Exited (-15)).
Proof.
  intros ev c w.
  assert (H : alive_after_join 0.5%float
                (evaluate_def sample_symbol_table sample_run) c w = true)
    by (vm_compute; reflexivity).
  split; [exact H|].
  destruct (evaluate_timeout sample_symbol_table sample_run sample_str c w H)
    as (H1 & H2 & _).
  split; [exact H1|exact H2].
Defined.

Lemma evaluate_reraises_witness :
  let c := sample_call "y = z" in
  let w := sample_world 0.125 in
  let e := Exn (ExceptionNamed "NameError") "name 'z' is not defined" in
  alive_after_join 0.5%float (evaluate_def sample_symbol_table sample_run) c w
    = false
  ∧ (evaluate_def sample_symbol_table sample_run c (snapshot w)).1 = Raises e
  ∧ (evaluate sample_symbol_table sample_run sample_str c w).1 = Raises e.
Proof.
  intros c w e.
  split; [vm_compute; reflexivity|]. split; [vm_compute; reflexivity|].
  apply (evaluate_reraises sample_symbol_table sample_run sample_str c w e);
    vm_compute; reflexivity.
Defined.

Lemma evaluate_finished_empty_witness :
  let ev := evaluate sample_symbol_table sample_run sample_str in
  let c := sample_call "for i in range(10 ** 9): pass" in
  let w := sample_world 0.125 in
  alive_after_join 0.5%float (evaluate_def sample_symbol_table sample_run) c w
    = false
  ∧ done_after_join 0.5%float (evaluate_def sample_symbol_table sample_run) c w
    = false
  ∧ (ev c w).1 = Raises (Exn AssertionError "")
  ∧ ∀ m, (ev c w).1 ≠ Returns m.
Proof.
  intros ev c w.
  split; [vm_compute; reflexivity|]. split; [vm_compute; reflexivity|].
  apply (evaluate_finished_empty sample_symbol_table sample_run sample_str c w);
    vm_compute; reflexivity.
Defined.

Lemma evaluate_output_filter_witness :
  let ev := evaluate sample_symbol_table sample_run sample_str in
  let c := sample_call "x = 5" in
  let w := sample_world 0.125 in
  let m : symtable := {[ "x" := VInt 5; "y" := VInt 10 ]} in
  (ev c w).1 = Returns m
  ∧ ∃ (sym : loc) (table : symtable),
      let s' := (evaluate_def sample_symbol_table sample_run c
                   (snapshot w)).2 in
      last (c_log s') = Some (Call_eval sym (eval_code c))
      ∧ c_heap s' !! sym = Some table
      ∧ dom m = dom table ∩ list_to_set (bound_output_variables c)
      ∧ ∀ x, x ∈ bound_output_variables c → m !! x = table !! x.
Proof.
  intros ev c w m. split; [vm_compute; reflexivity|].
  apply (evaluate_output_filter sample_symbol_table sample_run sample_str c w m).
  vm_compute; reflexivity.
Defined.



(** ** Where the code departs from C4, C5 and C6 *)



(** C5 as the spec states it fails on a call that passes
    [timeout_seconds=2.0]: with a child that exits at once the call raises
    [TypeError], and with a child that needs one second, less than the two
    asked for, it times out at 0.5 seconds. *)
Lemma evaluate_timeout_seconds_rejected :
  let ev := evaluate_call sample_symbol_table sample_run sample_str in
  let c := {| eval_code := "x = 5";
              input_variables := None;
              output_variables := Some ["x"];
              extra_keywords := [("timeout_seconds", VFloat 2)] |} in
  (ev c (sample_world 0.125)).1 =
    Raises (Exn TypeError
              "evaluate() got an unexpected keyword argument 'timeout_seconds'")
  ∧ (ev c (sample_world 1)).1 =
      Raises (Exn TimeoutException "timed out after 0.5 seconds").
Proof. split; vm_compute; reflexivity. Qed.

(** Two runs of [run_func] that push nothing: [evaluate]'s own body on an
    endless loop, and a callable that ends in [SystemExit], as a call of
    [sys.exit] does. *)
Lemma run_func_pushes_nothing :
  let looping :=
    run_func (evaluate_def sample_symbol_table sample_run
                (sample_call "while True: pass"))
      (Queue.new 1) (snapshot (sample_world 0.125)) in
  let exiting :=
    run_func (R := symtable) (λ s, (Escapes (SystemExit 0), s))
      (Queue.new 1) (snapshot (sample_world 0.125)) in
  (Queue.items looping.2 = [] ∧ length (Queue.items looping.2) ≠ 1)
  ∧ (Queue.items exiting.2 = [] ∧ length (Queue.items exiting.2) ≠ 1).
Proof. repeat split; vm_compute; congruence. Qed.

(** ** The further properties at the sample collaborators *)

Lemma timeout_without_force_kill_witness :
  let f := evaluate_def sample_symbol_table sample_run in
  let c := sample_call "while True: pass" in
  let w := sample_world 0.125 in
  alive_after_join 0.5%float f c w = true
  ∧ (timeout sample_str 0.5%float false f c w).1 =
      (timeout sample_str 0.5%float true f c w).1
  ∧ w_procs (timeout sample_str 0.5%float false f c w).2 !! spawned w
    = Some Running
  ∧ w_procs (timeout sample_str 0.5%float true f c w).2 !! spawned w
    = Some (Exited (-15)).
Proof.
  intros f c w. split; [vm_compute; reflexivity|].
  apply (timeout_without_force_kill sample_str 0.5%float f c w).
  vm_compute; reflexivity.
Defined.

Lemma timeout_base_exception_witness :
  let f := evaluate_def sample_symbol_table sample_run in
  let c := sample_call "for i in range(10 ** 9): pass" in
  let w := sample_world 0.125 in
  (f c (snapshot w)).1 = Escapes KeyboardInterrupt
  ∧ (w_child_runtime w <=? 0.5)%float = true
  ∧ (timeout sample_str 0.5%float true f c w).1
    = Raises (Exn AssertionError "").
Proof.
  intros f c w. split; [vm_compute; reflexivity|].
  split; [vm_compute; reflexivity|].
  apply (timeout_base_exception sample_str 0.5%float true f c w
           KeyboardInterrupt); vm_compute; reflexivity.
Defined.

Lemma run_func_full_queue_witness :
  let func := ret (S := child_state) (∅ : symtable) in
  let q := Queue.Make 1 [Failure (R := symtable) (Exn TypeError "")] in
  let s := snapshot (sample_world 0.125) in
  Queue.full q = true
  ∧ (run_func func q s).2 = q
  ∧ (run_func func q s).1 ≠ Returns tt
  ∧ ((∃ v, (func s).1 = Returns v) ∨ (∃ e, (func s).1 = Raises e) →
     (run_func func q s).1 = Diverges).
Proof.
  intros func q s. split; [reflexivity|].
  apply (run_func_full_queue func q s). reflexivity.
Defined.

Lemma evaluate_no_outputs_requested_witness :
  let c := {| eval_code := "x = 5"; input_variables := None;
              output_variables := None; extra_keywords := [] |} in
  let w := sample_world 0.125 in
  bound_output_variables c = []
  ∧ (evaluate sample_symbol_table sample_run sample_str c w).1 = Returns ∅
  ∧ (∅ : symtable) = ∅.
Proof.
  intros c w. split; [reflexivity|]. split; [vm_compute; reflexivity|].
  apply (evaluate_no_outputs_requested sample_symbol_table sample_run
           sample_str c w ∅); [reflexivity | vm_compute; reflexivity].
Defined.


Lemma evaluate_outputs_as_set_witness :
  let ev := evaluate sample_symbol_table sample_run sample_str in
  let c := λ o, {| eval_code := "x = 5"; input_variables := Some 2%positive;
                   output_variables := Some o; extra_keywords := [] |} in
  let w := sample_world 0.125 in
  (∀ x : string, x ∈ ["x"; "y"] ↔ x ∈ ["y"; "x"; "x"])
  ∧ ev (c ["x"; "y"]) w = ev (c ["y"; "x"; "x"]) w.
Proof.
  intros ev c w.
  assert (H : ∀ x : string, x ∈ ["x"; "y"] ↔ x ∈ ["y"; "x"; "x"]).
  { intros x. rewrite !elem_of_cons, elem_of_nil. tauto. }
  split; [exact H|].
  exact (evaluate_outputs_as_set sample_symbol_table sample_run sample_str
           "x = 5" (Some 2%positive) [] ["x"; "y"] ["y"; "x"; "x"] w H).
Defined.

Lemma evaluate_seeds_symbol_table_witness :
  let c := sample_call "x = 5" in
  let h := w_heap (sample_world 0.125) in
  let d : symtable := {[ "y" := VInt 10 ]} in
  extra_keywords c = []
  ∧ h !! bound_input_variables c = Some d
  ∧ ("use_numpy" ∉ dom d)
  ∧ ("range" ∉ dom d)
  ∧ ∃ (kws : symtable) (table : loc),
      c_log (evaluate_def sample_symbol_table sample_run c
               {| c_heap := h; c_log := [] |}).2
      = [Call_make_symbol_table false kws table;
         Call_Interpreter table evaluate_kwargs;
         Call_eval table (eval_code c)]
      ∧ h !! table = None
      ∧ kws !! "range" = Some (VBuiltin "range")
      ∧ (∀ k, k ≠ "range" → kws !! k = d !! k)
      ∧ dom kws = {["range"]} ∪ dom d.
Proof.
  intros c h d.
  assert (Hn : "use_numpy" ∉ dom d).
  { unfold d. rewrite dom_singleton_L, elem_of_singleton. discriminate. }
  assert (Hr : "range" ∉ dom d).
  { unfold d. rewrite dom_singleton_L, elem_of_singleton. discriminate. }
  split; [reflexivity|]. split; [vm_compute; reflexivity|].
  split; [exact Hn|]. split; [exact Hr|].
  apply (evaluate_seeds_symbol_table sample_symbol_table sample_run c h d);
    [reflexivity | vm_compute; reflexivity | exact Hn | exact Hr].
Defined.


Lemma timeout_returns_from_child_witness :
  let f := evaluate_def sample_symbol_table sample_run in
  let c := sample_call "x = 5" in
  let w := sample_world 0.125 in
  let v : symtable := {[ "x" := VInt 5; "y" := VInt 10 ]} in
  (timeout sample_str 0.5%float true f c w).1 = Returns v
  ∧ (f c (snapshot w)).1 = Returns v.
Proof.
  intros f c w v. split; [vm_compute; reflexivity|].
  apply (timeout_returns_from_child sample_str 0.5%float true f c w v).
  vm_compute; reflexivity.
Defined.
